(** * The vimc pipeline handler (src/libcamera/pipeline/vimc.cpp)

    A shallow embedding of [PipelineHandlerVimc] and of the stream data of
    include/libcamera/stream.h.  The V4L2 capture device is an interface
    (a type class over an abstract device state); the parts of the
    framework whose code is not part of the two source files (the
    [PipelineHandler] base class, [Request], the device matcher) are
    modelled from the written specification and marked as such.

    Conventions.
    - C++ [int] and [unsigned int] values are [Z]; no arithmetic is done
      on them, only comparisons.
    - Pointers to streams, buffers and requests are natural numbers
      (addresses).  [Stream] objects live in a store keyed by address.
    - Undefined behaviour of the C++ code ([front()] of an empty list,
      [*begin()] of an empty set, a dangling stream pointer) is the
      result [None] of the state monad [M].
    - [LOG] statements have no effect on the state and are left out. *)

From Stdlib Require Import ZArith Lia List String.
From stdpp Require Import base option list gmap strings.

Open Scope string_scope.
Open Scope list_scope.
Open Scope Z_scope.

Abbreviation StreamPtr := nat (only parsing).
Abbreviation BufferPtr := nat (only parsing).
Abbreviation RequestPtr := nat (only parsing).

(** ** errno.h and videodev2.h constants *)

Definition ENOENT : Z := 2.
Definition EINVAL : Z := 22.

(** [v4l2_fourcc(a, b, c, d)] of videodev2.h. *)
Definition v4l2_fourcc (a b c d : Z) : Z :=
  Z.lor (Z.lor a (Z.shiftl b 8)) (Z.lor (Z.shiftl c 16) (Z.shiftl d 24)).

(** ['R', 'G', 'B', '3']. *)
Definition V4L2_PIX_FMT_RGB24 : Z := v4l2_fourcc 82 71 66 51.

(** ** include/libcamera/stream.h *)

(** geometry.h: [struct Size { unsigned int width; unsigned int height; }]. *)
Record Size := mkSize { width : Z; height : Z }.

#[global] Instance Size_eq_dec : EqDecision Size.
Proof. solve_decision. Defined.

Record StreamConfiguration := mkStreamConfiguration {
  pixelFormat : Z;
  size : Size;
  bufferCount : Z
}.

#[global] Instance StreamConfiguration_eq_dec : EqDecision StreamConfiguration.
Proof. solve_decision. Defined.

Inductive StreamRole := StillCapture | VideoRecording | Viewfinder.

Definition StreamRoles := list StreamRole.

(** buffer.h: a pool is the vector of its buffers. *)
Definition BufferPool := list BufferPtr.

Record Stream := mkStream {
  bufferPool_ : BufferPool;
  configuration_ : StreamConfiguration
}.

Definition bufferPool (s : Stream) : BufferPool := bufferPool_ s.
Definition configuration (s : Stream) : StreamConfiguration := configuration_ s.

(** [stream->bufferPool()] returns a reference: writing through it. *)
Definition set_bufferPool (p : BufferPool) (s : Stream) : Stream :=
  {| bufferPool_ := p; configuration_ := configuration_ s |}.

(** ** Entity graphs (media_device.h) *)

(** Modelled from the spec: MediaEntity and MediaDevice (media_device.h is
    not among the sources).  An Entity is a named node; an Entity Graph is
    a named collection of Entities. *)
Record MediaEntity := mkEntity { ename : string }.

Record MediaDevice := mkMediaDevice {
  driver : string;
  entities : list MediaEntity
}.

(** Modelled from the spec: MediaDevice::getEntityByName, the "lookup
    Entity by name" accessor of a bound hardware handle; a null pointer
    when no entity has the name. *)
Definition getEntityByName (media : MediaDevice) (name : string)
  : option MediaEntity :=
  List.find (fun e => String.eqb (ename e) name) (entities media).

(** ** The V4L2 capture device (v4l2_device.h), an external collaborator *)

Module V4L2.

Record DeviceFormat := mkDeviceFormat { fourcc : Z; size : Size }.

(** Each method takes the device state and returns its [int] result, the
    objects it was handed by pointer, and the device state afterwards. *)
Class Device (D : Type) := {
  create : option MediaEntity -> D;
  open : D -> Z * D;
  setFormat : D -> DeviceFormat -> (Z * DeviceFormat) * D;
  exportBuffers : D -> BufferPool -> (Z * BufferPool) * D;
  releaseBuffers : D -> Z * D;
  streamOn : D -> Z * D;
  streamOff : D -> Z * D;
  queueBuffer : D -> BufferPtr -> Z * D
}.

End V4L2.

(** ** Requests (request.h) *)

Inductive RequestStatus := RequestPending | RequestComplete | RequestCancelled.

(** Modelled from the spec: Request (request.h is not among the sources).
    A Request maps each Stream it targets to the assigned Buffer and
    whether that Buffer has completed, and has an overall completion
    state.  [rid] is the address of the request object. *)
Record Request := mkRequest {
  rid : RequestPtr;
  buffers : gmap StreamPtr (BufferPtr * bool);
  status : RequestStatus
}.

(** Modelled from the spec: Request::findBuffer, the Buffer assigned to a
    Stream, a null pointer when the Request does not target the Stream. *)
Definition findBuffer (request : Request) (stream : StreamPtr)
  : option BufferPtr :=
  fst <$> buffers request !! stream.

(** Modelled from the spec: Request::completeBuffer, "the Buffer is marked
    complete for its Stream within that Request". *)
Definition markBuffer (buffer : BufferPtr) (e : BufferPtr * bool)
  : BufferPtr * bool :=
  (fst e, snd e || Nat.eqb (fst e) buffer).

Definition requestCompleteBuffer (request : Request) (buffer : BufferPtr)
  : Request :=
  {| rid := rid request;
     buffers := markBuffer buffer <$> buffers request;
     status := status request |}.

Definition setStatus (st : RequestStatus) (request : Request) : Request :=
  {| rid := rid request; buffers := buffers request; status := st |}.

(** Notifications delivered to the application:
    [onBufferComplete(camera, request, stream, buffer)] and
    [onRequestComplete(camera, request)]. *)
Inductive Signal :=
| BufferCompleted (request : Request) (buffer : BufferPtr)
| RequestCompleted (request : Request).

(** ** Camera configuration (camera.h) *)

(** Modelled from the spec: CameraConfiguration (camera.h is not among the
    sources), the set of per-Stream configurations, a finite map from
    Stream to StreamConfiguration.  Reading a Stream that has no entry
    through the const [operator[]] gives the value-initialised
    configuration. *)
Definition emptyConfiguration : StreamConfiguration :=
  {| pixelFormat := 0; size := mkSize 0 0; bufferCount := 0 |}.

Definition configAt (config : gmap StreamPtr StreamConfiguration)
  (stream : StreamPtr) : StreamConfiguration :=
  default emptyConfiguration (config !! stream).

(** ** Handler state *)

Section Handler.

Context {D : Type} `{!V4L2.Device D}.

(** [VimcCameraData]: the members declared in vimc.cpp and the in-flight
    queue [queuedRequests_] of its base class [CameraData]. *)
Record VimcCameraData := mkData {
  video_ : D;
  stream_ : StreamPtr;
  queuedRequests_ : list Request
}.

Record World := mkWorld {
  data : VimcCameraData;
  streams : gmap StreamPtr Stream;
  signals : list Signal
}.

(** State monad with undefined behaviour. *)
Definition M (A : Type) : Type := World -> option (A * World).

Definition ret {A} (a : A) : M A := fun w => Some (a, w).

Definition bind {A B} (m : M A) (k : A -> M B) : M B :=
  fun w => match m w with
           | Some (a, w') => k a w'
           | None => None
           end.

Definition undefined {A} : M A := fun _ => None.

Notation "x <- m ;; k" := (bind m (fun x => k))
  (at level 100, m at next level, right associativity, only parsing).
Notation "m ;;; k" := (bind m (fun _ => k))
  (at level 100, right associativity, only parsing).

(** [cameraData(camera)]. *)
Definition cameraData : M VimcCameraData := fun w => Some (data w, w).

Definition setData (d : VimcCameraData) : M unit :=
  fun w => Some (tt, {| data := d; streams := streams w; signals := signals w |}).

(** A call [data->video_->method(...)]. *)
Definition video {A} (method : D -> A * D) : M A :=
  d <- cameraData ;;
  let '(a, dev) := method (video_ d) in
  setData {| video_ := dev; stream_ := stream_ d;
             queuedRequests_ := queuedRequests_ d |} ;;;
  ret a.

Definition setQueue (q : list Request) : M unit :=
  d <- cameraData ;;
  setData {| video_ := video_ d; stream_ := stream_ d; queuedRequests_ := q |}.

Definition emit (s : Signal) : M unit :=
  fun w => Some (tt, {| data := data w; streams := streams w;
                        signals := signals w ++ [s] |}).

(** Dereferencing a [Stream *]. *)
Definition derefStream (p : StreamPtr) : M Stream :=
  fun w => match streams w !! p with
           | Some s => Some (s, w)
           | None => None
           end.

Definition storeStream (p : StreamPtr) (s : Stream) : M unit :=
  fun w => Some (tt, {| data := data w; streams := <[p := s]> (streams w);
                        signals := signals w |}).

End Handler.

Arguments VimcCameraData : clear implicits.
Arguments World : clear implicits.
Arguments M : clear implicits.

Notation "x <- m ;; k" := (bind m (fun x => k))
  (at level 100, m at next level, right associativity).
Notation "m ;;; k" := (bind m (fun _ => k))
  (at level 100, right associativity).

(** ** The PipelineHandler base class (pipeline_handler.h) *)

Module PipelineHandler.
Section Base.

Context {D : Type}.

(** Modelled from the spec: PipelineHandler::queueRequest
    (pipeline_handler.cpp is not among the sources), "appends the Request
    to the Camera's in-flight queue". *)
Definition queueRequest (request : Request) : M D unit :=
  d <- cameraData ;;
  setQueue (queuedRequests_ d ++ [request]).

(** Modelled from the spec: PipelineHandler::completeBuffer, "the Buffer
    is marked complete for its Stream within that Request", announced by
    [onBufferComplete].  The request object is passed by pointer: the
    function gives back the object as it has written it. *)
Definition completeBuffer (request : Request) (buffer : BufferPtr)
  : M D Request :=
  emit (BufferCompleted request buffer) ;;;
  ret (requestCompleteBuffer request buffer).

(** Modelled from the spec: PipelineHandler::completeRequest, "the Request
    is popped from the queue and reported as Completed to the
    application". *)
Definition completeRequest (request : Request) : M D unit :=
  d <- cameraData ;;
  setQueue (tail (queuedRequests_ d)) ;;;
  emit (RequestCompleted (setStatus RequestComplete request)).

(** Modelled from the spec: PipelineHandler::stop, "must flush the
    in-flight queue - any Requests not yet completed are either forcibly
    completed with an error status or discarded": each request still
    queued is taken off the front and reported with the cancelled
    status. *)
Fixpoint flush (queue : list Request) : M D unit :=
  match queue with
  | [] => ret tt
  | request :: rest =>
      setQueue rest ;;;
      emit (RequestCompleted (setStatus RequestCancelled request)) ;;;
      flush rest
  end.

Definition stop : M D unit :=
  d <- cameraData ;;
  flush (queuedRequests_ d).

End Base.
End PipelineHandler.

(** ** Device matching (device_enumerator.h) *)

(** Modelled from the spec: DeviceMatch (device_enumerator.h is not among
    the sources), "an ordered set of required Entity names", built by the
    handler with [add]. *)
Record DeviceMatch := mkDeviceMatch {
  dmDriver : string;
  dmEntities : list string
}.

Definition newDeviceMatch (drv : string) : DeviceMatch :=
  {| dmDriver := drv; dmEntities := [] |}.

Definition add (name : string) (dm : DeviceMatch) : DeviceMatch :=
  {| dmDriver := dmDriver dm; dmEntities := dmEntities dm ++ [name] |}.

Definition hasEntity (media : MediaDevice) (name : string) : bool :=
  existsb (fun e => String.eqb (ename e) name) (entities media).

(** Modelled from the spec: the Device Matcher, "for each discovered Entity
    Graph, checks that every required name is present among its Entities
    (set-containment ...)". *)
Definition contains (dm : DeviceMatch) (media : MediaDevice) : bool :=
  forallb (hasEntity media) (dmEntities dm).

(** Modelled from the spec: PipelineHandler::acquireMediaDevice over the
    enumerator's graphs in discovery order, "the first graph satisfying
    containment wins"; a null pointer when none does. *)
Definition acquireMediaDevice (enumerator : list MediaDevice)
  (dm : DeviceMatch) : option MediaDevice :=
  List.find (contains dm) enumerator.

(** Modelled from the spec: Camera (camera.h), "the application-facing
    handle exposing a set of Streams". *)
Record Camera := mkCamera {
  cameraName : string;
  cameraStreams : list StreamPtr
}.

(** ** PipelineHandlerVimc (vimc.cpp) *)

Module PipelineHandlerVimc.
Section Vimc.

Context {D : Type} `{!V4L2.Device D}.

(** The handler object: the media device it has acquired and the cameras
    it has registered, each with its private data. *)
Record Handler := mkHandler {
  media_ : option MediaDevice;
  cameras_ : list (Camera * VimcCameraData D)
}.

(** vimc.cpp:77.  [roles] is not read. *)
Definition generateConfiguration (roles : StreamRoles)
  : M D (gmap StreamPtr StreamConfiguration) :=
  d <- cameraData ;;
  let config : gmap StreamPtr StreamConfiguration := ∅ in
  let cfg := {| pixelFormat := V4L2_PIX_FMT_RGB24;
                size := mkSize 640 480;
                bufferCount := 4 |} in
  let config := <[stream_ d := cfg]> config in
  ret config.

(** vimc.cpp:94. *)
Definition configure (config : gmap StreamPtr StreamConfiguration)
  : M D Z :=
  d <- cameraData ;;
  let cfg := configAt config (stream_ d) in
  let format := {| V4L2.fourcc := pixelFormat cfg;
                   V4L2.size := size cfg |} in
  r <- video (fun dev => V4L2.setFormat dev format) ;;
  let '(ret_, format) := r in
  if negb (ret_ =? 0) then ret ret_
  else if negb (bool_decide (V4L2.size format = size cfg))
          || negb (V4L2.fourcc format =? pixelFormat cfg)
       then ret (- EINVAL)
       else ret 0.

(** vimc.cpp:116.  [streams] is the set in iteration order; only
    [*streams.begin()] is used, and [cfg.bufferCount] is only logged. *)
Definition allocateBuffers (streams_ : list StreamPtr) : M D Z :=
  match streams_ with
  | [] => undefined
  | stream :: _ =>
      s <- derefStream stream ;;
      let cfg := configuration s in
      r <- video (fun dev => V4L2.exportBuffers dev (bufferPool s)) ;;
      let '(ret_, pool) := r in
      storeStream stream (set_bufferPool pool s) ;;;
      ret ret_
  end.


(** vimc.cpp:135. *)
Definition start : M D Z :=
  video V4L2.streamOn.

(** vimc.cpp:141.  The result of [streamOff] is not looked at. *)
Definition stop : M D unit :=
  video V4L2.streamOff ;;;
  PipelineHandler.stop.

(** vimc.cpp:148. *)
Definition queueRequest (request : Request) : M D Z :=
  d <- cameraData ;;
  match findBuffer request (stream_ d) with
  | None => ret (- ENOENT)
  | Some buffer =>
      ret_ <- video (fun dev => V4L2.queueBuffer dev buffer) ;;
      if ret_ <? 0 then ret ret_
      else
        PipelineHandler.queueRequest request ;;;
        ret 0
  end.

(** vimc.cpp:204. *)
Definition bufferReady (buffer : BufferPtr) : M D unit :=
  d <- cameraData ;;
  match queuedRequests_ d with
  | [] => undefined
  | request :: _ =>
      request <- PipelineHandler.completeBuffer request buffer ;;
      PipelineHandler.completeRequest request
  end.

(** The [DeviceMatch] that [match] builds (vimc.cpp:170-180). *)
Definition vimcMatch : DeviceMatch :=
  let dm := newDeviceMatch "vimc" in
  let dm := add "Raw Capture 0" dm in
  let dm := add "Raw Capture 1" dm in
  let dm := add "RGB/YUV Capture" dm in
  let dm := add "Sensor A" dm in
  let dm := add "Sensor B" dm in
  let dm := add "Debayer A" dm in
  let dm := add "Debayer B" dm in
  let dm := add "RGB/YUV Input" dm in
  let dm := add "Scaler" dm in
  dm.

(** Modelled from the spec: PipelineHandler::registerCamera, the camera
    and its private data are handed to the registry. *)
Definition registerCamera (camera : Camera) (d : VimcCameraData D)
  (h : Handler) : Handler :=
  {| media_ := media_ h; cameras_ := cameras_ h ++ [(camera, d)] |}.

(** vimc.cpp:168.  [streamAddr] is the address of the [stream_] member of
    the private data that [make_unique] allocates.  Connecting the
    [bufferReady] signal of the device to [VimcCameraData::bufferReady]
    changes no state of the handler: buffer events reach [bufferReady]
    below through [run]. *)
Definition match_ (enumerator : list MediaDevice) (streamAddr : StreamPtr)
  (h : Handler) : bool * Handler :=
  let dm := vimcMatch in
  match acquireMediaDevice enumerator dm with
  | None => (false, h)
  | Some media =>
      let h := {| media_ := Some media; cameras_ := cameras_ h |} in
      let video := V4L2.create (getEntityByName media "Raw Capture 1") in
      let '(ret_, video) := V4L2.open video in
      if negb (ret_ =? 0) then (false, h)
      else
        let d := {| video_ := video; stream_ := streamAddr;
                    queuedRequests_ := [] |} in
        let streams_ := [streamAddr] in
        let camera := mkCamera "VIMC Sensor B" streams_ in
        (true, registerCamera camera d h)
  end.

(** *** Event sequences

    The application submits requests and the capture device reports
    buffers.  [inHardware] lists the buffers the device has accepted and
    not yet reported, oldest first; a [Ready] event that does not carry
    the oldest of them breaks the ordering contract of the device. *)

Inductive Event :=
| Submit (request : Request)
| Ready (buffer : BufferPtr).

Inductive Outcome :=
| Done (inHardware : list BufferPtr) (accepted : list Request) (w : World D)
| UndefinedBehaviour
| OutOfOrder.

Fixpoint run (events : list Event) (inHardware : list BufferPtr)
  (accepted : list Request) (w : World D) : Outcome :=
  match events with
  | [] => Done inHardware accepted w
  | Submit request :: events =>
      match queueRequest request w with
      | None => UndefinedBehaviour
      | Some (ret_, w') =>
          match findBuffer request (stream_ (data w)), ret_ =? 0 with
          | Some buffer, true =>
              run events (inHardware ++ [buffer]) (accepted ++ [request]) w'
          | _, _ => run events inHardware accepted w'
          end
      end
  | Ready buffer :: events =>
      match inHardware with
      | oldest :: inHardware =>
          if Nat.eqb oldest buffer then
            match bufferReady buffer w with
            | None => UndefinedBehaviour
            | Some (_, w') => run events inHardware accepted w'
            end
          else OutOfOrder
      | [] => OutOfOrder
      end
  end.

(** The requests in flight are those whose buffers the device holds, in
    the same order. *)
Definition inFlight (hw : list BufferPtr) (w : World D) : Prop :=
  map (fun r => findBuffer r (stream_ (data w))) (queuedRequests_ (data w))
  = map Some hw.

Definition isReady (e : Event) : bool :=
  match e with Ready _ => true | Submit _ => false end.

(** The notifications one completed request gives rise to. *)
Definition completion (stream : StreamPtr) (request : Request) : list Signal :=
  match findBuffer request stream with
  | Some buffer =>
      [BufferCompleted request buffer;
       RequestCompleted
         (setStatus RequestComplete (requestCompleteBuffer request buffer))]
  | None => []
  end.

End Vimc.
End PipelineHandlerVimc.

(** The requests reported Completed, in the order of their reports. *)
Definition completedRequests (sigs : list Signal) : list RequestPtr :=
  flat_map (fun s => match s with
                     | RequestCompleted r =>
                         match status r with
                         | RequestComplete => [rid r]
                         | _ => []
                         end
                     | BufferCompleted _ _ => []
                     end) sigs.

(** ** A scripted capture device

    Every call takes the next return code of [script] (0 once the script
    is used up).  [setFormat] reports [forced] when set and the requested
    format otherwise; a successful [exportBuffers] fills the pool with
    [exported] buffers. *)

Module Fixture.

Record Dev := mkDev {
  script : list Z;
  forced : option V4L2.DeviceFormat;
  exported : nat
}.

Definition next (d : Dev) : Z * Dev :=
  match script d with
  | [] => (0, d)
  | r :: rest =>
      (r, {| script := rest; forced := forced d; exported := exported d |})
  end.

Definition scriptedFrom (initial : list Z) : V4L2.Device Dev := {|
  V4L2.create :=
    fun _ => {| script := initial; forced := None; exported := 4 |};
  V4L2.open := next;
  V4L2.setFormat := fun d format =>
    let '(r, d') := next d in ((r, default format (forced d)), d');
  V4L2.exportBuffers := fun d pool =>
    let '(r, d') := next d in
    ((r, if r =? 0 then seq 0 (exported d) else pool), d');
  V4L2.releaseBuffers := next;
  V4L2.streamOn := next;
  V4L2.streamOff := next;
  V4L2.queueBuffer := fun d _ => next d
|}.

#[global] Instance scripted : V4L2.Device Dev := scriptedFrom [].

(** A device whose video node does not open (-ENODEV). *)
Definition unopenable : V4L2.Device Dev := scriptedFrom [-19].

Definition device (codes : list Z) : Dev :=
  {| script := codes; forced := None; exported := 4 |}.

(** A device that answers every [setFormat] with 320x240. *)
Definition qvgaOnly : Dev :=
  {| script := [];
     forced := Some {| V4L2.fourcc := V4L2_PIX_FMT_RGB24;
                       V4L2.size := mkSize 320 240 |};
     exported := 4 |}.

Definition vga : StreamConfiguration :=
  {| pixelFormat := V4L2_PIX_FMT_RGB24; size := mkSize 640 480;
     bufferCount := 4 |}.

(** A device whose [setFormat] fails with -EIO and leaves 320x240 in the
    format. *)
Definition qvgaFailing : Dev :=
  {| script := [-5];
     forced := Some {| V4L2.fourcc := V4L2_PIX_FMT_RGB24;
                       V4L2.size := mkSize 320 240 |};
     exported := 4 |}.


(** A camera whose stream lives at address 1, with a second stream at 2. *)
Definition world (dev : Dev) (queue : list Request) : World Dev :=
  {| data := {| video_ := dev; stream_ := 1%nat; queuedRequests_ := queue |};
     streams := {[ 1%nat := mkStream [] vga; 2%nat := mkStream [] vga ]};
     signals := [] |}.

(** A request for one buffer of the stream at [stream]. *)
Definition request (id : RequestPtr) (stream : StreamPtr)
  (buffer : BufferPtr) : Request :=
  {| rid := id; buffers := {[ stream := (buffer, false) ]};
     status := RequestPending |}.

(** A request targeting the camera's stream and a foreign one. *)
Definition mixedRequest : Request :=
  {| rid := 7%nat;
     buffers := {[ 1%nat := (0%nat, false); 9%nat := (5%nat, false) ]};
     status := RequestPending |}.

Definition vimcGraph : MediaDevice :=
  {| driver := "vimc";
     entities := map mkEntity
       ["Debayer A"; "Debayer B"; "Raw Capture 0"; "Raw Capture 1";
        "RGB/YUV Capture"; "RGB/YUV Input"; "Scaler"; "Sensor A";
        "Sensor B"; "Extra"] |}.

Definition otherGraph : MediaDevice :=
  {| driver := "uvcvideo"; entities := map mkEntity ["USB Camera"] |}.

End Fixture.

(** * Properties *)

Import PipelineHandlerVimc.

Example rgb24_value : V4L2_PIX_FMT_RGB24 = 0x33424752.
Proof. reflexivity. Qed.

Example scenario_R1_R2_R3 :
  match run [Submit (Fixture.request 1 1 0); Submit (Fixture.request 2 1 1);
             Submit (Fixture.request 3 1 2); Ready 0%nat; Ready 1%nat]
            [] [] (Fixture.world (Fixture.device []) []) with
  | Done hw acc w =>
      completedRequests (signals w) = [1%nat; 2%nat]
      /\ map rid (queuedRequests_ (data w)) = [3%nat]
  | _ => False
  end.
Proof. vm_compute. split; reflexivity. Qed.

Section Properties.

Context {D : Type} `{!V4L2.Device D}.

Implicit Types (w : World D) (request : Request) (buffer : BufferPtr).

(** *** Equations of the handler functions *)

Lemma generateConfiguration_eq (roles : StreamRoles) w :
  generateConfiguration roles w
  = Some ({[ stream_ (data w) :=
               {| pixelFormat := V4L2_PIX_FMT_RGB24; size := mkSize 640 480;
                  bufferCount := 4 |} ]}, w).
Proof. reflexivity. Qed.

Lemma bufferReady_nil buffer w :
  queuedRequests_ (data w) = [] -> bufferReady buffer w = None.
Proof.
  intros Hq. unfold bufferReady, bind, cameraData. now rewrite Hq.
Qed.

Lemma bufferReady_cons buffer w request rest :
  queuedRequests_ (data w) = request :: rest ->
  bufferReady buffer w
  = Some (tt,
      {| data := {| video_ := video_ (data w); stream_ := stream_ (data w);
                    queuedRequests_ := rest |};
         streams := streams w;
         signals := (signals w ++ [BufferCompleted request buffer])
                    ++ [RequestCompleted
                          (setStatus RequestComplete
                             (requestCompleteBuffer request buffer))] |}).
Proof.
  intros Hq. unfold bufferReady, bind, cameraData. rewrite Hq.
  cbn. rewrite Hq. reflexivity.
Qed.

Lemma requestCompleteBuffer_marks request buffer (s : StreamPtr) (done : bool) :
  buffers request !! s = Some (buffer, done) ->
  buffers (requestCompleteBuffer request buffer) !! s = Some (buffer, true).
Proof.
  intros Hs. unfold requestCompleteBuffer. cbn.
  rewrite lookup_fmap, Hs. cbn. unfold markBuffer. cbn.
  rewrite Nat.eqb_refl, orb_true_r. reflexivity.
Qed.

Lemma requestCompleteBuffer_others request buffer (s : StreamPtr)
  (b : BufferPtr) (done : bool) :
  buffers request !! s = Some (b, done) -> b <> buffer ->
  buffers (requestCompleteBuffer request buffer) !! s = Some (b, done).
Proof.
  intros Hs Hne. unfold requestCompleteBuffer. cbn.
  rewrite lookup_fmap, Hs. cbn. unfold markBuffer. cbn.
  apply Nat.eqb_neq in Hne. rewrite Hne, orb_false_r. reflexivity.
Qed.

(** *** Completion of the front request *)

(** C1: a buffer-ready event delivered while a request is in flight is
    correlated against the front of the queue: the buffer is announced and
    marked complete within that request, and the request is popped and
    reported Completed at once; device, streams and the rest of the queue
    are left as they were. *)
Theorem bufferReady_completes_front buffer w request rest :
  queuedRequests_ (data w) = request :: rest ->
  exists w',
    bufferReady buffer w = Some (tt, w')
    /\ queuedRequests_ (data w') = rest
    /\ signals w'
       = signals w
         ++ [BufferCompleted request buffer;
             RequestCompleted
               (setStatus RequestComplete
                  (requestCompleteBuffer request buffer))]
    /\ (forall (s : StreamPtr) done,
          buffers request !! s = Some (buffer, done) ->
          buffers (requestCompleteBuffer request buffer) !! s
          = Some (buffer, true))
    /\ status (setStatus RequestComplete (requestCompleteBuffer request buffer))
       = RequestComplete
    /\ video_ (data w') = video_ (data w)
    /\ stream_ (data w') = stream_ (data w)
    /\ streams w' = streams w.
Proof.
  intros Hq. eexists. split; [exact (bufferReady_cons buffer w _ _ Hq)|].
  cbn. repeat split.
  - now rewrite <- app_assoc.
  - intros s done. apply requestCompleteBuffer_marks.
Qed.

(** C5 (amended): with an empty in-flight queue the handler has no guard:
    it takes the front of the empty queue, which is undefined behaviour;
    nothing is logged or dropped.  Its behaviour is defined exactly when
    the queue is not empty. *)
Theorem bufferReady_defined_iff buffer w :
  (queuedRequests_ (data w) = [] -> bufferReady buffer w = None)
  /\ (is_Some (bufferReady buffer w) <-> queuedRequests_ (data w) <> []).
Proof.
  split; [apply bufferReady_nil|].
  destruct (queuedRequests_ (data w)) as [|r q] eqn:Hq.
  - rewrite (bufferReady_nil _ _ Hq). split.
    + intros [x Hx]. discriminate.
    + intros Hne. now contradiction Hne.
  - rewrite (bufferReady_cons _ _ _ _ Hq). split; [discriminate|eauto].
Qed.

(** *** Configuration *)

Lemma configure_eq (config : gmap StreamPtr StreamConfiguration) w
  (ret_ : Z) (format : V4L2.DeviceFormat) (dev : D) :
  V4L2.setFormat (video_ (data w))
    {| V4L2.fourcc := pixelFormat (configAt config (stream_ (data w)));
       V4L2.size := size (configAt config (stream_ (data w))) |}
  = ((ret_, format), dev) ->
  configure config w
  = Some (if negb (ret_ =? 0) then ret_
          else if negb (bool_decide
                          (V4L2.size format
                           = size (configAt config (stream_ (data w)))))
                  || negb (V4L2.fourcc format
                           =? pixelFormat (configAt config (stream_ (data w))))
               then - EINVAL else 0,
          {| data := {| video_ := dev; stream_ := stream_ (data w);
                        queuedRequests_ := queuedRequests_ (data w) |};
             streams := streams w; signals := signals w |}).
Proof.
  intros Hset. unfold configure, bind, cameraData, video, bind, cameraData.
  cbn. rewrite Hset. cbn.
  destruct (negb (ret_ =? 0)); [reflexivity|].
  destruct (negb _ || negb _); reflexivity.
Qed.

(** C4 (amended): when [setFormat] itself fails, [configure] returns the
    code of [setFormat], whatever format is read back; when [setFormat]
    succeeds and the format or size it reports back differs from the
    requested pixel format or size, [configure] fails with -EINVAL; hence
    a successful [configure] means the device reported exactly the
    requested format and size. *)
Theorem configure_reads_back (config : gmap StreamPtr StreamConfiguration) w
  (ret_ : Z) (format : V4L2.DeviceFormat) (dev : D) :
  V4L2.setFormat (video_ (data w))
    {| V4L2.fourcc := pixelFormat (configAt config (stream_ (data w)));
       V4L2.size := size (configAt config (stream_ (data w))) |}
  = ((ret_, format), dev) ->
  exists r w',
    configure config w = Some (r, w')
    /\ (V4L2.size format <> size (configAt config (stream_ (data w)))
        \/ V4L2.fourcc format <> pixelFormat (configAt config (stream_ (data w)))
        -> r <> 0 /\ (ret_ = 0 -> r = - EINVAL))
    /\ (r = 0 ->
        ret_ = 0
        /\ V4L2.fourcc format = pixelFormat (configAt config (stream_ (data w)))
        /\ V4L2.size format = size (configAt config (stream_ (data w))))
    /\ (ret_ <> 0 -> r = ret_).
Proof.
  intros Hset. rewrite (configure_eq _ _ _ _ _ Hset).
  do 2 eexists. split; [reflexivity|].
  destruct (Z.eqb_spec ret_ 0) as [Hr|Hr]; cbn.
  - case_bool_decide as Hs; cbn.
    + destruct (Z.eqb_spec (V4L2.fourcc format)
                  (pixelFormat (configAt config (stream_ (data w)))))
        as [Hf|Hf]; cbn.
      * split; [intros [Hd|Hd]; contradiction|].
        split; [intros _; auto|intros Hne; contradiction].
      * split; [intros _; split; [discriminate|reflexivity]|].
        split; [discriminate|intros Hne; contradiction].
    + split; [intros _; split; [discriminate|reflexivity]|].
      split; [discriminate|intros Hne; contradiction].
  - split; [intros _; split; [assumption|contradiction]|].
    split; [intros Hz; contradiction|reflexivity].
Qed.

(** C9 (amended): whatever roles are requested, [generateConfiguration]
    returns, leaves the whole state (the device included) untouched, and
    produces exactly one configuration, for the camera's single stream:
    RGB24, 640x480, 4 buffers. *)
Theorem generateConfiguration_single (roles : StreamRoles) w :
  exists config,
    generateConfiguration roles w = Some (config, w)
    /\ config
       = {[ stream_ (data w) :=
              {| pixelFormat := V4L2_PIX_FMT_RGB24; size := mkSize 640 480;
                 bufferCount := 4 |} ]}
    /\ base.size config = 1%nat.
Proof.
  eexists. split; [apply generateConfiguration_eq|].
  split; [reflexivity|]. apply map_size_singleton.
Qed.

(** *** Queueing a request *)

Lemma queueRequest_notfound request w :
  findBuffer request (stream_ (data w)) = None ->
  queueRequest request w = Some (- ENOENT, w).
Proof.
  intros Hf. unfold queueRequest, bind, cameraData. now rewrite Hf.
Qed.

Lemma queueRequest_found request w buffer (r : Z) (dev : D) :
  findBuffer request (stream_ (data w)) = Some buffer ->
  V4L2.queueBuffer (video_ (data w)) buffer = (r, dev) ->
  queueRequest request w
  = Some (if r <? 0 then r else 0,
          {| data := {| video_ := dev; stream_ := stream_ (data w);
                        queuedRequests_ :=
                          if r <? 0 then queuedRequests_ (data w)
                          else queuedRequests_ (data w) ++ [request] |};
             streams := streams w; signals := signals w |}).
Proof.
  intros Hf Hq. unfold queueRequest, bind, cameraData. rewrite Hf.
  unfold video, bind, cameraData. cbn. rewrite Hq. cbn.
  destruct (r <? 0); reflexivity.
Qed.

(** C3 (amended): [queueRequest] appends the request to the in-flight
    queue and returns 0 exactly when the request carries a buffer for the
    camera's own stream and the device does not refuse it.  A request with
    no buffer for the camera's stream gets -ENOENT with the whole state
    untouched; a refusal of the device is returned as it is, with queue,
    streams and notifications untouched and the device as the failed call
    left it. *)
Theorem queueRequest_outcome request w :
  (findBuffer request (stream_ (data w)) = None ->
   queueRequest request w = Some (- ENOENT, w))
  /\ (forall buffer (r : Z) (dev : D),
        findBuffer request (stream_ (data w)) = Some buffer ->
        V4L2.queueBuffer (video_ (data w)) buffer = (r, dev) ->
        (r < 0 ->
         queueRequest request w
         = Some (r, {| data := {| video_ := dev; stream_ := stream_ (data w);
                                  queuedRequests_ := queuedRequests_ (data w) |};
                       streams := streams w; signals := signals w |}))
        /\ (0 <= r ->
            queueRequest request w
            = Some (0, {| data := {| video_ := dev; stream_ := stream_ (data w);
                                     queuedRequests_ :=
                                       queuedRequests_ (data w) ++ [request] |};
                          streams := streams w; signals := signals w |})))
  /\ (forall w',
        queueRequest request w = Some (0, w') ->
        exists buffer,
          findBuffer request (stream_ (data w)) = Some buffer
          /\ 0 <= fst (V4L2.queueBuffer (video_ (data w)) buffer)
          /\ queuedRequests_ (data w') = queuedRequests_ (data w) ++ [request]).
Proof.
  split; [apply queueRequest_notfound|]. split.
  - intros buffer r dev Hf Hq. rewrite (queueRequest_found _ _ _ _ _ Hf Hq).
    split; intros Hr.
    + apply Z.ltb_lt in Hr. now rewrite Hr.
    + apply Z.ltb_ge in Hr. now rewrite Hr.
  - intros w' Hw'.
    destruct (findBuffer request (stream_ (data w))) as [buffer|] eqn:Hf.
    + destruct (V4L2.queueBuffer (video_ (data w)) buffer) as [r dev] eqn:Hq.
      rewrite (queueRequest_found _ _ _ _ _ Hf Hq) in Hw'.
      exists buffer. split; [reflexivity|]. rewrite Hq. cbn.
      destruct (Z.ltb_spec r 0) as [Hr|Hr].
      * injection Hw' as Hr0 _. lia.
      * injection Hw' as <-. cbn. split; [lia|reflexivity].
    + rewrite (queueRequest_notfound _ _ Hf) in Hw'. discriminate.
Qed.

(** *** Stopping *)

Lemma flush_spec (queue : list Request) : forall w,
  PipelineHandler.flush queue w
  = Some (tt,
      {| data := {| video_ := video_ (data w); stream_ := stream_ (data w);
                    queuedRequests_ :=
                      match queue with
                      | [] => queuedRequests_ (data w)
                      | _ :: _ => []
                      end |};
         streams := streams w;
         signals := signals w
                    ++ map (fun r => RequestCompleted
                                       (setStatus RequestCancelled r)) queue |}).
Proof.
  induction queue as [|r queue IH]; intros w.
  - cbn. unfold ret. rewrite app_nil_r. now destruct w as [[? ? ?] ? ?].
  - cbn [PipelineHandler.flush]. unfold bind, setQueue, emit, bind, cameraData.
    cbn. rewrite IH. cbn.
    rewrite <- app_assoc. cbn. now destruct queue.
Qed.

Lemma stop_eq w :
  PipelineHandlerVimc.stop w
  = Some (tt,
      {| data := {| video_ := snd (V4L2.streamOff (video_ (data w)));
                    stream_ := stream_ (data w);
                    queuedRequests_ := [] |};
         streams := streams w;
         signals := signals w
                    ++ map (fun r => RequestCompleted
                                       (setStatus RequestCancelled r))
                         (queuedRequests_ (data w)) |}).
Proof.
  unfold PipelineHandlerVimc.stop, bind, video, bind, cameraData. cbn.
  destruct (V4L2.streamOff (video_ (data w))) as [r dev]. cbn.
  unfold PipelineHandler.stop, bind, cameraData. cbn.
  rewrite flush_spec. cbn. now destruct (queuedRequests_ (data w)).
Qed.

Lemma start_eq w :
  start w
  = Some (fst (V4L2.streamOn (video_ (data w))),
      {| data := {| video_ := snd (V4L2.streamOn (video_ (data w)));
                    stream_ := stream_ (data w);
                    queuedRequests_ := queuedRequests_ (data w) |};
         streams := streams w; signals := signals w |}).
Proof.
  unfold start, video, bind, cameraData. cbn.
  now destruct (V4L2.streamOn (video_ (data w))).
Qed.

(** C6: whatever [streamOff] returns, [stop] returns with the in-flight
    queue flushed: every request still queued is reported cancelled, the
    queue is empty, and a [start] issued next begins on an empty queue. *)
Theorem stop_flushes_queue w :
  exists w',
    PipelineHandlerVimc.stop w = Some (tt, w')
    /\ queuedRequests_ (data w') = []
    /\ video_ (data w') = snd (V4L2.streamOff (video_ (data w)))
    /\ signals w'
       = signals w
         ++ map (fun r => RequestCompleted (setStatus RequestCancelled r))
              (queuedRequests_ (data w))
    /\ exists r w'',
         start w' = Some (r, w'') /\ queuedRequests_ (data w'') = [].
Proof.
  eexists. split; [apply stop_eq|].
  do 3 (split; [reflexivity|]).
  do 2 eexists. split; [apply start_eq|]. reflexivity.
Qed.

(** *** Buffer pools *)

Lemma allocateBuffers_cons (stream : StreamPtr) (rest : list StreamPtr) w
  (s : Stream) (r : Z) (pool : BufferPool) (dev : D) :
  streams w !! stream = Some s ->
  V4L2.exportBuffers (video_ (data w)) (bufferPool s) = ((r, pool), dev) ->
  allocateBuffers (stream :: rest) w
  = Some (r,
      {| data := {| video_ := dev; stream_ := stream_ (data w);
                    queuedRequests_ := queuedRequests_ (data w) |};
         streams := <[stream := set_bufferPool pool s]> (streams w);
         signals := signals w |}).
Proof.
  intros Hs He. unfold allocateBuffers, bind at 1, derefStream.
  rewrite Hs. unfold video, bind, cameraData. cbn. rewrite He. reflexivity.
Qed.



(** *** Matching *)

Lemma find_first {A} (f : A -> bool) (l : list A) (x : A) :
  List.find f l = Some x ->
  f x = true
  /\ exists before after,
       l = before ++ x :: after /\ forall y, In y before -> f y = false.
Proof.
  induction l as [|a l IH]; cbn; [discriminate|].
  destruct (f a) eqn:Ha.
  - intros [= ->]. split; [assumption|]. exists [], l. split; [reflexivity|].
    intros y [].
  - intros Hx. destruct (IH Hx) as (Hfx & before & after & -> & Hb).
    split; [assumption|]. exists (a :: before), after.
    split; [reflexivity|]. intros y [<-|Hy]; auto.
Qed.

Lemma contains_spec (dm : DeviceMatch) (media : MediaDevice) :
  contains dm media = true
  <-> forall name, In name (dmEntities dm) ->
        exists e, In e (entities media) /\ ename e = name.
Proof.
  unfold contains, hasEntity. rewrite forallb_forall.
  split; intros Hall name Hin; specialize (Hall name Hin).
  - apply existsb_exists in Hall as (e & He & Heq).
    exists e. split; [assumption|]. now apply String.eqb_eq.
  - destruct Hall as (e & He & Heq). apply existsb_exists.
    exists e. split; [assumption|]. now apply String.eqb_eq.
Qed.

Lemma vimcMatch_entities :
  dmEntities vimcMatch
  = ["Raw Capture 0"; "Raw Capture 1"; "RGB/YUV Capture"; "Sensor A";
     "Sensor B"; "Debayer A"; "Debayer B"; "RGB/YUV Input"; "Scaler"].
Proof. reflexivity. Qed.

Lemma match_none (enumerator : list MediaDevice) (addr : StreamPtr)
  (h : Handler) :
  acquireMediaDevice enumerator vimcMatch = None ->
  match_ enumerator addr h = (false, h).
Proof. intros Ha. unfold match_. now rewrite Ha. Qed.

Lemma match_some (enumerator : list MediaDevice) (addr : StreamPtr)
  (h : Handler) (media : MediaDevice) :
  acquireMediaDevice enumerator vimcMatch = Some media ->
  match_ enumerator addr h
  = (let '(r, video) :=
       V4L2.open (V4L2.create (getEntityByName media "Raw Capture 1")) in
     if negb (r =? 0)
     then (false, {| media_ := Some media; cameras_ := cameras_ h |})
     else (true,
           {| media_ := Some media;
              cameras_ :=
                cameras_ h
                ++ [(mkCamera "VIMC Sensor B" [addr],
                     {| video_ := video; stream_ := addr;
                        queuedRequests_ := [] |})] |})).
Proof.
  intros Ha. unfold match_. rewrite Ha.
  now destruct (V4L2.open _) as [r video].
Qed.

(** C8: [match] acquires a media device exactly when some discovered graph
    contains every required vimc entity name (further entities do not
    matter); the device acquired is the first such graph in discovery
    order; when no graph qualifies [match] returns false and leaves the
    handler as it was. *)
Theorem match_binds_first_superset (enumerator : list MediaDevice)
  (addr : StreamPtr) (h : Handler) :
  let required :=
    ["Raw Capture 0"; "Raw Capture 1"; "RGB/YUV Capture"; "Sensor A";
     "Sensor B"; "Debayer A"; "Debayer B"; "RGB/YUV Input"; "Scaler"] in
  let superset (media : MediaDevice) :=
    forall name, In name required ->
      exists e, In e (entities media) /\ ename e = name in
  ((exists media, In media enumerator /\ superset media)
   <-> exists media, media_ (snd (match_ enumerator addr
                                   {| media_ := None; cameras_ := cameras_ h |}))
                     = Some media)
  /\ (forall media,
        media_ (snd (match_ enumerator addr
                       {| media_ := None; cameras_ := cameras_ h |}))
        = Some media ->
        superset media
        /\ exists before after,
             enumerator = before ++ media :: after
             /\ forall g, In g before -> ~ superset g)
  /\ ((forall media, In media enumerator -> ~ superset media) ->
      match_ enumerator addr h = (false, h))
  /\ (fst (match_ enumerator addr h) = true ->
      exists media, In media enumerator /\ superset media).
Proof.
  intros required superset.
  assert (Hsup : forall media, contains vimcMatch media = true <-> superset media).
  { intros media. rewrite contains_spec, vimcMatch_entities. reflexivity. }
  assert (Hbound : forall h0 : Handler,
             media_ h0 = None ->
             media_ (snd (match_ enumerator addr h0))
             = acquireMediaDevice enumerator vimcMatch).
  { intros h0 Hm.
    destruct (acquireMediaDevice enumerator vimcMatch) as [media|] eqn:Ha.
    - rewrite (match_some _ _ _ _ Ha).
      destruct (V4L2.open _) as [r video]. now destruct (negb (r =? 0)).
    - now rewrite (match_none _ _ _ Ha). }
  rewrite Hbound by reflexivity. split; [|split; [|split]].
  - split.
    + intros (media & Hin & Hs).
      destruct (acquireMediaDevice enumerator vimcMatch) as [m|] eqn:Ha; [eauto|].
      exfalso. apply Hsup in Hs.
      pose proof (find_none _ _ Ha media Hin) as Hf. congruence.
    + intros (media & Ha). apply find_some in Ha as [Hin Hc].
      exists media. split; [assumption|]. now apply Hsup.
  - intros media Ha. apply find_first in Ha as (Hc & before & after & He & Hb).
    split; [now apply Hsup|]. exists before, after. split; [assumption|].
    intros g Hg Hs. apply Hsup in Hs. specialize (Hb g Hg). congruence.
  - intros Hnone. apply match_none.
    destruct (acquireMediaDevice enumerator vimcMatch) as [m|] eqn:Ha;
      [|reflexivity].
    apply find_some in Ha as [Hin Hc]. exfalso.
    apply (Hnone m Hin). now apply Hsup.
  - intros Htrue.
    destruct (acquireMediaDevice enumerator vimcMatch) as [m|] eqn:Ha.
    + apply find_some in Ha as [Hin Hc]. exists m.
      split; [assumption|]. now apply Hsup.
    + rewrite (match_none _ _ _ Ha) in Htrue. discriminate.
Qed.

(** C10: when the media device has been acquired but the capture video
    node does not open, [match] returns false, the value it returns when
    no graph matches, and registers no camera. *)
Theorem match_open_failure (enumerator : list MediaDevice) (addr : StreamPtr)
  (h : Handler) (media : MediaDevice) :
  acquireMediaDevice enumerator vimcMatch = Some media ->
  fst (V4L2.open (V4L2.create (getEntityByName media "Raw Capture 1"))) <> 0 ->
  match_ enumerator addr h
  = (false, {| media_ := Some media; cameras_ := cameras_ h |})
  /\ fst (match_ enumerator addr h) = fst (match_ [] addr h)
  /\ cameras_ (snd (match_ enumerator addr h)) = cameras_ h.
Proof.
  intros Ha Hopen. rewrite (match_some _ _ _ _ Ha).
  destruct (V4L2.open _) as [r video]. cbn in Hopen.
  apply Z.eqb_neq in Hopen. rewrite Hopen. cbn. auto.
Qed.

(** *** Order of completions *)

Lemma completedRequests_app (l1 l2 : list Signal) :
  completedRequests (l1 ++ l2) = completedRequests l1 ++ completedRequests l2.
Proof. unfold completedRequests. apply flat_map_app. Qed.

Lemma completedRequests_completion (stream : StreamPtr) (l : list Request) :
  Forall (fun r => is_Some (findBuffer r stream)) l ->
  completedRequests (flat_map (completion stream) l) = map rid l.
Proof.
  induction 1 as [|r l [b Hb] _ IH]; [reflexivity|].
  cbn [flat_map map]. rewrite completedRequests_app, IH.
  unfold completion. rewrite Hb. reflexivity.
Qed.

Lemma inFlight_Forall (hw : list BufferPtr) w :
  inFlight hw w ->
  Forall (fun r => is_Some (findBuffer r (stream_ (data w))))
    (queuedRequests_ (data w)).
Proof.
  unfold inFlight. generalize (queuedRequests_ (data w)) as q.
  intros q. revert hw. induction q as [|r q IH]; intros hw Hm; [constructor|].
  destruct hw as [|b hw]; [discriminate|]. cbn in Hm.
  injection Hm as Hr Hq. constructor; [eauto|]. exact (IH _ Hq).
Qed.

Lemma run_in_order (events : list Event) :
  forall (hw : list BufferPtr) (acc : list Request) w,
    inFlight hw w ->
    run events hw acc w <> OutOfOrder ->
    exists hw' more w',
      run events hw acc w = Done hw' (acc ++ more) w'
      /\ Forall (fun r => is_Some (findBuffer r (stream_ (data w)))) more
      /\ (length (List.filter isReady events)
          <= length (queuedRequests_ (data w) ++ more))%nat
      /\ queuedRequests_ (data w')
         = drop (length (List.filter isReady events))
             (queuedRequests_ (data w) ++ more)
      /\ signals w'
         = signals w
           ++ flat_map (completion (stream_ (data w)))
                (take (length (List.filter isReady events))
                   (queuedRequests_ (data w) ++ more))
      /\ stream_ (data w') = stream_ (data w)
      /\ streams w' = streams w.
Proof.
  induction events as [|e events IH]; intros hw acc w Hinv Hrun.
  - exists hw, [], w. cbn. rewrite !app_nil_r.
    repeat split; [constructor | lia].
  - destruct e as [request|buffer]; cbn [run] in *.
    + destruct (findBuffer request (stream_ (data w))) as [b|] eqn:Hf.
      * destruct (V4L2.queueBuffer (video_ (data w)) b) as [r dev] eqn:Hq.
        rewrite (queueRequest_found _ _ _ _ _ Hf Hq) in *.
        destruct (r <? 0) eqn:Hlt.
        -- assert (Hz : (r =? 0) = false).
           { apply Z.eqb_neq. apply Z.ltb_lt in Hlt. lia. }
           rewrite Hz in *.
           match type of Hrun with run _ _ _ ?w1 <> _ => set (w1' := w1) in * end.
           assert (Hinv' : inFlight hw w1') by exact Hinv.
           destruct (IH _ _ _ Hinv' Hrun) as (hw' & more & w' & Hd & Hrest).
           exists hw', more, w'. split; [exact Hd|exact Hrest].
        -- cbn [Z.eqb] in *.
           match type of Hrun with run _ _ _ ?w1 <> _ => set (w1' := w1) in * end.
           assert (Hinv' : inFlight (hw ++ [b]) w1').
           { unfold inFlight in *. cbn. rewrite !map_app, Hinv. cbn.
             now rewrite Hf. }
           destruct (IH _ _ _ Hinv' Hrun)
             as (hw' & more & w' & Hd & Hsome & Hlen & Hq' & Hs & Hst & Hstr).
           exists hw', (request :: more), w'. cbn in *.
           rewrite <- !app_assoc in *. cbn in *.
           repeat split; try assumption.
           constructor; [eauto|assumption].
      * rewrite (queueRequest_notfound _ _ Hf) in *.
        destruct (IH _ _ _ Hinv Hrun) as (hw' & more & w' & Hd & Hrest).
        exists hw', more, w'. split; [exact Hd|exact Hrest].
    + destruct hw as [|oldest hw]; [contradiction|].
      destruct (Nat.eqb_spec oldest buffer) as [->|Hne]; [|contradiction].
      destruct (queuedRequests_ (data w)) as [|r q] eqn:Hqueue;
        [unfold inFlight in Hinv; rewrite Hqueue in Hinv; discriminate|].
      assert (Hfront : findBuffer r (stream_ (data w)) = Some buffer
                       /\ map (fun r => findBuffer r (stream_ (data w))) q
                          = map Some hw).
      { unfold inFlight in Hinv. rewrite Hqueue in Hinv. cbn in Hinv.
        injection Hinv as Hr Hq. auto. }
      destruct Hfront as [Hfront Hrest].
      rewrite (bufferReady_cons _ _ _ _ Hqueue) in *.
      match type of Hrun with run _ _ _ ?w1 <> _ => set (w1' := w1) in * end.
      assert (Hinv' : inFlight hw w1') by exact Hrest.
      destruct (IH _ _ _ Hinv' Hrun)
        as (hw' & more & w' & Hd & Hsome & Hlen & Hq' & Hs & Hst & Hstr).
      exists hw', more, w'. cbn in *.
      repeat split; try assumption; try lia.
      rewrite Hs. unfold completion at 2. rewrite Hfront.
      rewrite <- !app_assoc. reflexivity.
Qed.

(** C2: when requests are submitted and the device reports their buffers
    in the order it accepted them, the event sequence runs to its end and
    the requests are reported Completed in the order of their submission,
    one report per completion event: the reports are those of the first
    [k] accepted requests ([k] the number of buffer-ready events), each
    with its own buffer, the other accepted requests are still queued in
    order, and no request is reported twice. *)
Theorem completions_follow_submissions (events : list Event) w :
  queuedRequests_ (data w) = [] ->
  run events [] [] w <> OutOfOrder ->
  exists hw accepted w',
    run events [] [] w = Done hw accepted w'
    /\ (length (List.filter isReady events) <= length accepted)%nat
    /\ signals w'
       = signals w
         ++ flat_map (completion (stream_ (data w)))
              (take (length (List.filter isReady events)) accepted)
    /\ completedRequests (signals w')
       = completedRequests (signals w)
         ++ map rid (take (length (List.filter isReady events)) accepted)
    /\ queuedRequests_ (data w')
       = drop (length (List.filter isReady events)) accepted
    /\ (NoDup (map rid accepted) ->
        NoDup (map rid (take (length (List.filter isReady events)) accepted))
        /\ forall r,
             In r (take (length (List.filter isReady events)) accepted) ->
             ~ In (rid r) (map rid (queuedRequests_ (data w')))).
Proof.
  intros Hq Hrun.
  assert (Hinv : inFlight [] w) by (unfold inFlight; now rewrite Hq).
  destruct (run_in_order events [] [] w Hinv Hrun)
    as (hw' & more & w' & Hd & Hsome & Hlen & Hq' & Hs & Hst & Hstr).
  rewrite Hq in *. cbn in *.
  exists hw', more, w'.
  do 3 (split; [assumption|]). split; [|split; [assumption|]].
  - rewrite Hs, completedRequests_app. f_equal.
    apply completedRequests_completion.
    apply Forall_take. exact Hsome.
  - intros Hnd.
    rewrite <- (take_drop (length (List.filter isReady events)) more) in Hnd.
    rewrite map_app in Hnd. apply NoDup_app in Hnd as (Hfirst & Hdisj & _).
    split; [exact Hfirst|].
    intros r Hr Hin. rewrite Hq' in Hin. apply (Hdisj (rid r)).
    + apply list_elem_of_In. now apply in_map.
    + now apply list_elem_of_In.
Qed.

End Properties.

(** * Concrete runs *)

(** C1, at a camera with two requests in flight: the event for buffer 0
    completes the first of them. *)
Lemma bufferReady_completes_front_witness :
  exists w',
    bufferReady 0%nat
      (Fixture.world (Fixture.device [])
         [Fixture.request 1 1 0; Fixture.request 2 1 1])
    = Some (tt, w')
    /\ queuedRequests_ (data w') = [Fixture.request 2 1 1]
    /\ completedRequests (signals w') = [1%nat].
Proof.
  destruct (bufferReady_completes_front 0%nat
              (Fixture.world (Fixture.device [])
                 [Fixture.request 1 1 0; Fixture.request 2 1 1])
              (Fixture.request 1 1 0) [Fixture.request 2 1 1] eq_refl)
    as (w' & Hrun & Hqueue & Hsig & _).
  exists w'. split; [exact Hrun|]. split; [exact Hqueue|].
  rewrite Hsig. reflexivity.
Defined.

(** C2, the scenario R1, R2, R3 with completions for the buffers of R1 and
    R2. *)
Lemma completions_follow_submissions_witness :
  exists hw accepted w',
    run [Submit (Fixture.request 1 1 0); Submit (Fixture.request 2 1 1);
         Submit (Fixture.request 3 1 2); Ready 0%nat; Ready 1%nat]
        [] [] (Fixture.world (Fixture.device []) [])
    = Done hw accepted w'
    /\ completedRequests (signals w') = map rid (take 2 accepted)
    /\ queuedRequests_ (data w') = drop 2 accepted.
Proof.
  destruct (completions_follow_submissions
              [Submit (Fixture.request 1 1 0); Submit (Fixture.request 2 1 1);
               Submit (Fixture.request 3 1 2); Ready 0%nat; Ready 1%nat]
              (Fixture.world (Fixture.device []) []) eq_refl)
    as (hw & accepted & w' & Hrun & _ & _ & Hdone & Hqueue & _).
  - vm_compute. discriminate.
  - exists hw, accepted, w'. split; [exact Hrun|]. split; assumption.
Defined.

(** C3, as stated, fails: a request that targets the camera's stream (1)
    and a stream the camera does not know (9) is accepted and queued. *)
Lemma queueRequest_accepts_foreign_stream :
  (exists s : StreamPtr,
     is_Some (buffers Fixture.mixedRequest !! s)
     /\ s <> stream_ (data (Fixture.world (Fixture.device []) [])))
  /\ exists w',
       queueRequest Fixture.mixedRequest (Fixture.world (Fixture.device []) [])
       = Some (0, w')
       /\ queuedRequests_ (data w') = [Fixture.mixedRequest].
Proof.
  split.
  - exists 9%nat. split; [|discriminate]. vm_compute. eauto.
  - eexists. split; [vm_compute; reflexivity|reflexivity].
Qed.

(** C4, as stated, fails: [setFormat] returns -5 and leaves 320x240 where
    640x480 was requested, and [configure] returns -5, not -EINVAL. *)
Lemma configure_device_error_passed_on :
  V4L2.setFormat Fixture.qvgaFailing
    {| V4L2.fourcc := V4L2_PIX_FMT_RGB24; V4L2.size := mkSize 640 480 |}
  = ((-5, {| V4L2.fourcc := V4L2_PIX_FMT_RGB24;
             V4L2.size := mkSize 320 240 |}), Fixture.qvgaOnly)
  /\ mkSize 320 240 <> size Fixture.vga
  /\ (exists w',
        configure {[ 1%nat := Fixture.vga ]}
          (Fixture.world Fixture.qvgaFailing [])
        = Some (-5, w'))
  /\ -5 <> - EINVAL.
Proof.
  split; [vm_compute; reflexivity|]. split; [discriminate|].
  split; [|discriminate]. eexists. vm_compute. reflexivity.
Qed.

(** C4 (amended), at a device that answers 320x240 to the request for
    640x480. *)
Lemma configure_reads_back_witness :
  exists r w',
    configure {[ 1%nat := Fixture.vga ]} (Fixture.world Fixture.qvgaOnly [])
    = Some (r, w')
    /\ r = - EINVAL.
Proof.
  assert (Hset :
    V4L2.setFormat (video_ (data (Fixture.world Fixture.qvgaOnly [])))
      {| V4L2.fourcc :=
           pixelFormat (configAt {[ 1%nat := Fixture.vga ]}
                          (stream_ (data (Fixture.world Fixture.qvgaOnly []))));
         V4L2.size :=
           size (configAt {[ 1%nat := Fixture.vga ]}
                   (stream_ (data (Fixture.world Fixture.qvgaOnly [])))) |}
    = ((0, {| V4L2.fourcc := V4L2_PIX_FMT_RGB24;
              V4L2.size := mkSize 320 240 |}), Fixture.qvgaOnly))
    by (vm_compute; reflexivity).
  destruct (configure_reads_back _ _ _ _ _ Hset)
    as (r & w' & Hrun & Hdiffer & _).
  exists r, w'. split; [exact Hrun|].
  apply Hdiffer; [|reflexivity]. left. vm_compute. discriminate.
Defined.

(** C5, as stated, fails: with an empty queue the event is not dropped
    with the state unchanged; the handler has no defined result. *)
Lemma bufferReady_empty_queue_undefined :
  queuedRequests_ (data (Fixture.world (Fixture.device []) [])) = []
  /\ bufferReady 0%nat (Fixture.world (Fixture.device []) []) = None
  /\ bufferReady 0%nat (Fixture.world (Fixture.device []) [])
     <> Some (tt, Fixture.world (Fixture.device []) []).
Proof.
  split; [reflexivity|]. split; [reflexivity|]. discriminate.
Qed.



(** C9, as stated, fails: two roles are requested and one configuration is
    produced. *)
Lemma generateConfiguration_ignores_roles :
  exists config,
    generateConfiguration [StillCapture; Viewfinder]
      (Fixture.world (Fixture.device []) [])
    = Some (config, Fixture.world (Fixture.device []) [])
    /\ base.size config = 1%nat
    /\ length [StillCapture; Viewfinder] = 2%nat.
Proof.
  eexists. split; [apply generateConfiguration_eq|].
  split; [apply map_size_singleton|reflexivity].
Qed.

(** C10, at an enumerator whose second graph is the vimc one and a video
    node that does not open. *)
Lemma match_open_failure_witness :
  @match_ Fixture.Dev Fixture.unopenable
    [Fixture.otherGraph; Fixture.vimcGraph] 1%nat
    {| media_ := None; cameras_ := [] |}
  = (false, {| media_ := Some Fixture.vimcGraph; cameras_ := [] |}).
Proof.
  refine (proj1 (@match_open_failure Fixture.Dev Fixture.unopenable
                   [Fixture.otherGraph; Fixture.vimcGraph] 1%nat
                   {| media_ := None; cameras_ := [] |}
                   Fixture.vimcGraph eq_refl _)).
  vm_compute. discriminate.
Defined.

Example match_registers_camera :
  match_ [Fixture.otherGraph; Fixture.vimcGraph] 1%nat
    {| media_ := None; cameras_ := [] |}
  = (true,
     {| media_ := Some Fixture.vimcGraph;
        cameras_ :=
          [(mkCamera "VIMC Sensor B" [1%nat],
            {| video_ := Fixture.device []; stream_ := 1%nat;
               queuedRequests_ := [] |})] |}).
Proof. reflexivity. Qed.

Example queueRequest_foreign_only :
  queueRequest (Fixture.request 4 9 0) (Fixture.world (Fixture.device []) [])
  = Some (- ENOENT, Fixture.world (Fixture.device []) []).
Proof. reflexivity. Qed.

Example queueRequest_device_refuses :
  (fun o => (fst o, queuedRequests_ (data (snd o))))
    <$> queueRequest (Fixture.request 4 1 0)
          (Fixture.world (Fixture.device [-5]) [])
  = Some (-5, []).
Proof. reflexivity. Qed.

Example stop_after_failed_streamOff :
  (fun o => (queuedRequests_ (data (snd o)), completedRequests (signals (snd o))))
    <$> PipelineHandlerVimc.stop
          (Fixture.world (Fixture.device [-5])
             [Fixture.request 1 1 0; Fixture.request 2 1 1])
  = Some ([], []).
Proof. reflexivity. Qed.

(** * Further properties of the handler *)

Section Further.

Context {D : Type} `{!V4L2.Device D}.

Implicit Types (w : World D) (request : Request) (buffer : BufferPtr).

(** X1: [queueRequest] always returns, and never a positive value: a
    positive code of [queueBuffer] is taken for success like 0 and turned
    into 0, with the request queued, while a negative code is returned as
    it is and a request without a buffer for the camera's stream gets
    -ENOENT.  The queue has the request appended when the result is 0 and
    is the same otherwise; streams and notifications are never touched. *)
Theorem queueRequest_code_nonpositive request w :
  exists r w',
    queueRequest request w = Some (r, w')
    /\ r <= 0
    /\ (r = 0 ->
        queuedRequests_ (data w') = queuedRequests_ (data w) ++ [request])
    /\ (r <> 0 -> queuedRequests_ (data w') = queuedRequests_ (data w))
    /\ signals w' = signals w
    /\ streams w' = streams w
    /\ (forall buffer,
          findBuffer request (stream_ (data w)) = Some buffer ->
          (0 <= fst (V4L2.queueBuffer (video_ (data w)) buffer) ->
           r = 0
           /\ queuedRequests_ (data w')
              = queuedRequests_ (data w) ++ [request])
          /\ (fst (V4L2.queueBuffer (video_ (data w)) buffer) < 0 ->
              r = fst (V4L2.queueBuffer (video_ (data w)) buffer))
          /\ video_ (data w')
             = snd (V4L2.queueBuffer (video_ (data w)) buffer))
    /\ (findBuffer request (stream_ (data w)) = None ->
        r = - ENOENT /\ w' = w).
Proof.
  destruct (findBuffer request (stream_ (data w))) as [b|] eqn:Hf.
  - destruct (V4L2.queueBuffer (video_ (data w)) b) as [r dev] eqn:Hq.
    rewrite (queueRequest_found _ _ _ _ _ Hf Hq).
    do 2 eexists. split; [reflexivity|]. cbn.
    destruct (Z.ltb_spec r 0) as [Hr|Hr].
    + do 5 (split; [intros; try reflexivity; try lia|]).
      split; [|discriminate].
      intros buffer [= <-]. rewrite Hq. cbn.
      repeat split; intros; try reflexivity; lia.
    + do 5 (split; [intros; try reflexivity; try lia; congruence|]).
      split; [|discriminate].
      intros buffer [= <-]. rewrite Hq. cbn.
      repeat split; intros; try reflexivity; lia.
  - rewrite (queueRequest_notfound _ _ Hf).
    exists (- ENOENT), w. split; [reflexivity|].
    do 5 (split; [unfold ENOENT; intros; try reflexivity; lia|]).
    split; [intros buffer Hb; discriminate|]. intros _. split; reflexivity.
Qed.

(** X2: [configure] returns 0 exactly when [setFormat] returned 0 and
    reported the requested format back unchanged; when [setFormat] did not
    return 0 its code is the result, and in the remaining case the result
    is -EINVAL.  The device is left as [setFormat] left it. *)
Theorem configure_success_iff (config : gmap StreamPtr StreamConfiguration) w
  (ret_ : Z) (format : V4L2.DeviceFormat) (dev : D) :
  V4L2.setFormat (video_ (data w))
    {| V4L2.fourcc := pixelFormat (configAt config (stream_ (data w)));
       V4L2.size := size (configAt config (stream_ (data w))) |}
  = ((ret_, format), dev) ->
  exists r w',
    configure config w = Some (r, w')
    /\ (r = 0
        <-> ret_ = 0
            /\ format
               = {| V4L2.fourcc :=
                      pixelFormat (configAt config (stream_ (data w)));
                    V4L2.size := size (configAt config (stream_ (data w))) |})
    /\ (ret_ <> 0 -> r = ret_)
    /\ (r = 0 \/ r = - EINVAL \/ r = ret_)
    /\ video_ (data w') = dev.
Proof.
  intros Hset. rewrite (configure_eq _ _ _ _ _ Hset).
  do 2 eexists. split; [reflexivity|]. cbn.
  destruct format as [fcc sz]. cbn.
  destruct (Z.eqb_spec ret_ 0) as [Hr|Hr]; cbn.
  - case_bool_decide as Hs; cbn.
    + destruct (Z.eqb_spec fcc
                  (pixelFormat (configAt config (stream_ (data w)))))
        as [Hf|Hf]; cbn.
      * subst. repeat split; auto; intros; contradiction.
      * unfold EINVAL. repeat split; auto; try discriminate.
        -- intros [_ Heq]. injection Heq as Heq _. contradiction.
        -- intros; contradiction.
    + unfold EINVAL. repeat split; auto; try discriminate.
      * intros [_ Heq]. injection Heq as _ Heq. contradiction.
      * intros; contradiction.
  - repeat split; auto; try contradiction.
    intros [Hz _]. contradiction.
Qed.


(** X4: the configuration that [generateConfiguration] produces, handed to
    [configure], makes the handler ask the device for RGB24 at 640x480,
    and [configure] returns 0 when the device accepts that format
    unchanged. *)
Theorem configure_generated (roles : StreamRoles) w
  (ret_ : Z) (format : V4L2.DeviceFormat) (dev : D) :
  V4L2.setFormat (video_ (data w))
    {| V4L2.fourcc := V4L2_PIX_FMT_RGB24; V4L2.size := mkSize 640 480 |}
  = ((ret_, format), dev) ->
  exists config r w',
    generateConfiguration roles w = Some (config, w)
    /\ configure config w = Some (r, w')
    /\ video_ (data w') = dev
    /\ (ret_ = 0 ->
        format = {| V4L2.fourcc := V4L2_PIX_FMT_RGB24;
                    V4L2.size := mkSize 640 480 |} ->
        r = 0)
    /\ (r = 0 ->
        ret_ = 0
        /\ format = {| V4L2.fourcc := V4L2_PIX_FMT_RGB24;
                       V4L2.size := mkSize 640 480 |}).
Proof.
  intros Hset. eexists. 
  assert (Hcfg : configAt
            ({[ stream_ (data w) :=
                  {| pixelFormat := V4L2_PIX_FMT_RGB24;
                     size := mkSize 640 480; bufferCount := 4 |} ]}
               : gmap StreamPtr StreamConfiguration) (stream_ (data w))
          = {| pixelFormat := V4L2_PIX_FMT_RGB24;
               size := mkSize 640 480; bufferCount := 4 |}).
  { unfold configAt. now rewrite lookup_singleton_eq. }
  assert (Hset' :
    V4L2.setFormat (video_ (data w))
      {| V4L2.fourcc :=
           pixelFormat
             (configAt ({[ stream_ (data w) :=
                             {| pixelFormat := V4L2_PIX_FMT_RGB24;
                                size := mkSize 640 480; bufferCount := 4 |} ]}
                          : gmap StreamPtr StreamConfiguration)
                (stream_ (data w)));
         V4L2.size :=
           size
             (configAt ({[ stream_ (data w) :=
                             {| pixelFormat := V4L2_PIX_FMT_RGB24;
                                size := mkSize 640 480; bufferCount := 4 |} ]}
                          : gmap StreamPtr StreamConfiguration)
                (stream_ (data w))) |}
    = ((ret_, format), dev)).
  { rewrite Hcfg. exact Hset. }
  rewrite (configure_eq _ _ _ _ _ Hset'), Hcfg.
  do 2 eexists. split; [apply generateConfiguration_eq|].
  split; [reflexivity|]. cbn. split; [reflexivity|].
  destruct format as [fcc sz]. cbn.
  destruct (Z.eqb_spec ret_ 0) as [Hr|Hr]; cbn.
  - case_bool_decide as Hs; cbn.
    + destruct (Z.eqb_spec fcc V4L2_PIX_FMT_RGB24) as [Hf|Hf]; cbn.
      * subst. auto.
      * split; [|discriminate]. intros _ Heq. injection Heq as Heq _.
        contradiction.
    + split; [|discriminate]. intros _ Heq. injection Heq as _ Heq.
      contradiction.
  - split; [intros; contradiction|]. intros Hz. contradiction.
Qed.

(** X5: [allocateBuffers] has a defined result exactly when the set of
    streams is not empty and its first element points to a stream; on the
    empty set it dereferences [streams.begin()] of an empty set. *)
Theorem allocateBuffers_defined_iff (streams_ : list StreamPtr) w :
  is_Some (allocateBuffers streams_ w)
  <-> exists (stream : StreamPtr) (rest : list StreamPtr),
        streams_ = stream :: rest /\ is_Some (streams w !! stream).
Proof.
  split.
  - intros [x Hx]. destruct streams_ as [|stream rest]; [discriminate|].
    exists stream, rest. split; [reflexivity|].
    destruct (streams w !! stream) as [s|] eqn:Hs; [eauto|].
    unfold allocateBuffers, bind at 1, derefStream in Hx.
    rewrite Hs in Hx. discriminate.
  - intros (stream & rest & -> & [s Hs]).
    destruct (V4L2.exportBuffers (video_ (data w)) (bufferPool s))
      as [[r0 pool] dev] eqn:He.
    rewrite (allocateBuffers_cons _ _ _ _ _ _ _ Hs He). eauto.
Qed.

(** X6: [match] registers exactly one camera when it returns true and none
    when it returns false; the cameras registered before are kept in
    place.  The camera registered is "VIMC Sensor B" with the single stream
    of its private data, an empty in-flight queue and the video device as
    [open] left it. *)
Theorem match_registers_one_camera (enumerator : list MediaDevice)
  (addr : StreamPtr) (h : Handler) :
  (fst (match_ enumerator addr h) = true ->
   exists media video,
     acquireMediaDevice enumerator vimcMatch = Some media
     /\ V4L2.open (V4L2.create (getEntityByName media "Raw Capture 1"))
        = (0, video)
     /\ snd (match_ enumerator addr h)
        = {| media_ := Some media;
             cameras_ :=
               cameras_ h
               ++ [(mkCamera "VIMC Sensor B" [addr],
                    {| video_ := video; stream_ := addr;
                       queuedRequests_ := [] |})] |})
  /\ (fst (match_ enumerator addr h) = false ->
      cameras_ (snd (match_ enumerator addr h)) = cameras_ h)
  /\ length (cameras_ (snd (match_ enumerator addr h)))
     = (length (cameras_ h)
        + (if fst (match_ enumerator addr h) then 1 else 0))%nat.
Proof.
  destruct (acquireMediaDevice enumerator vimcMatch) as [media|] eqn:Ha.
  - rewrite (match_some _ _ _ _ Ha).
    destruct (V4L2.open (V4L2.create (getEntityByName media "Raw Capture 1")))
      as [r video] eqn:Hopen.
    destruct (Z.eqb_spec r 0) as [->|Hr]; cbn.
    + split; [|split].
      * intros _. exists media, video. auto.
      * discriminate.
      * rewrite length_app. reflexivity.
    + split; [discriminate|]. split; [reflexivity|]. lia.
  - rewrite (match_none _ _ _ Ha). cbn.
    split; [discriminate|]. split; [reflexivity|]. lia.
Qed.

Lemma requestCompleteBuffer_foreign request buffer :
  (forall (s : StreamPtr) e, buffers request !! s = Some e -> fst e <> buffer) ->
  requestCompleteBuffer request buffer = request.
Proof.
  intros Hforeign. destruct request as [id bufs st].
  unfold requestCompleteBuffer. cbn in *. f_equal.
  apply map_eq. intros s. rewrite lookup_fmap.
  destruct (bufs !! s) as [[b done]|] eqn:Hs; [|reflexivity]. cbn.
  specialize (Hforeign s _ Hs). cbn in Hforeign.
  apply Nat.eqb_neq in Hforeign. unfold markBuffer. cbn.
  now rewrite Hforeign, orb_false_r.
Qed.

(** X7: [bufferReady] does not compare the buffer of the event with the
    front request: an event for a buffer the front request does not hold
    still pops that request and reports it Completed, with none of its
    own buffers marked. *)
Theorem bufferReady_foreign_buffer buffer w request rest :
  queuedRequests_ (data w) = request :: rest ->
  (forall (s : StreamPtr) e, buffers request !! s = Some e -> fst e <> buffer) ->
  exists w',
    bufferReady buffer w = Some (tt, w')
    /\ queuedRequests_ (data w') = rest
    /\ signals w'
       = signals w
         ++ [BufferCompleted request buffer;
             RequestCompleted (setStatus RequestComplete request)].
Proof.
  intros Hq Hforeign. rewrite (bufferReady_cons _ _ _ _ Hq).
  eexists. split; [reflexivity|]. cbn. split; [reflexivity|].
  rewrite (requestCompleteBuffer_foreign _ _ Hforeign).
  now rewrite <- app_assoc.
Qed.

(** X8: while a request is in flight, submitting a request and handling a
    buffer event commute: either order gives the same result code and the
    same state. *)
Theorem queueRequest_bufferReady_commute request buffer w :
  queuedRequests_ (data w) <> [] ->
  (c <- queueRequest request ;; bufferReady buffer ;;; ret c) w
  = (bufferReady buffer ;;; queueRequest request) w.
Proof.
  intros Hne.
  destruct (queuedRequests_ (data w)) as [|front rest] eqn:Hq;
    [now contradiction Hne|].
  unfold bind at 1 3. rewrite (bufferReady_cons _ _ _ _ Hq).
  destruct (findBuffer request (stream_ (data w))) as [b|] eqn:Hf.
  - destruct (V4L2.queueBuffer (video_ (data w)) b) as [r dev] eqn:Hdev.
    rewrite (queueRequest_found _ _ _ _ _ Hf Hdev).
    erewrite (queueRequest_found request _ b r dev); [|exact Hf|exact Hdev].
    unfold bind. rewrite Hq.
    destruct (r <? 0);
      erewrite bufferReady_cons by reflexivity; reflexivity.
  - rewrite (queueRequest_notfound _ _ Hf).
    rewrite queueRequest_notfound by exact Hf.
    unfold bind. now rewrite (bufferReady_cons _ _ _ _ Hq).
Qed.

(** X9: after [stop] the in-flight queue is empty, so a buffer event that
    arrives late has no request to complete and the handler's behaviour is
    undefined, while a second [stop] returns and notifies nobody. *)
Theorem stop_then_late_event buffer w :
  exists w',
    PipelineHandlerVimc.stop w = Some (tt, w')
    /\ bufferReady buffer w' = None
    /\ exists w'',
         PipelineHandlerVimc.stop w' = Some (tt, w'')
         /\ signals w'' = signals w'
         /\ queuedRequests_ (data w'') = [].
Proof.
  eexists. split; [apply stop_eq|].
  split; [now apply bufferReady_nil|].
  eexists. split; [apply stop_eq|]. cbn.
  split; [apply app_nil_r|reflexivity].
Qed.

(** X10: the entity whose video node [match] opens is always found: in a
    media device that [match] has acquired, [getEntityByName] gives an
    entity named "Raw Capture 1", never a null pointer. *)
Theorem match_video_entity_found (enumerator : list MediaDevice)
  (media : MediaDevice) :
  acquireMediaDevice enumerator vimcMatch = Some media ->
  exists e,
    getEntityByName media "Raw Capture 1" = Some e
    /\ ename e = "Raw Capture 1"
    /\ In e (entities media).
Proof.
  intros Ha. apply find_some in Ha as [_ Hc].
  pose proof (proj1 (contains_spec _ _) Hc "Raw Capture 1") as Hname.
  destruct Hname as (e & He & Hn).
  { rewrite vimcMatch_entities. cbn. auto. }
  unfold getEntityByName.
  destruct (List.find _ (entities media)) as [e'|] eqn:Hfind.
  - apply find_some in Hfind as [He' Heq]. exists e'.
    split; [reflexivity|]. split; [now apply String.eqb_eq|assumption].
  - pose proof (find_none _ _ Hfind e He) as Hno. cbn in Hno.
    rewrite Hn, String.eqb_refl in Hno. discriminate.
Qed.

(** X11: [configure] reads the entry of the camera's own stream only: two
    configurations that agree on that stream give the same result and the
    same state, whatever they hold for other streams. *)
Theorem configure_reads_own_stream_only
  (config1 config2 : gmap StreamPtr StreamConfiguration) w :
  config1 !! stream_ (data w) = config2 !! stream_ (data w) ->
  configure config1 w = configure config2 w.
Proof.
  intros Hsame. unfold configure, bind at 1 3, cameraData, configAt.
  now rewrite Hsame.
Qed.

(** X12: along every run in which the device reports buffers in order, the
    in-flight queue mirrors the buffers the device holds: the queued
    requests are, one for one and in the same order, those whose buffers
    have been accepted and not yet reported. *)
Theorem run_keeps_inFlight (events : list Event) :
  forall (hw : list BufferPtr) (acc : list Request) w
         (hw' : list BufferPtr) (acc' : list Request) w',
    inFlight hw w ->
    run events hw acc w = Done hw' acc' w' ->
    inFlight hw' w'
    /\ length (queuedRequests_ (data w')) = length hw'.
Proof.
  induction events as [|e events IH]; intros hw acc w hw' acc' w' Hinv Hrun.
  - injection Hrun as <- _ <-. split; [exact Hinv|].
    unfold inFlight in Hinv. apply (f_equal length) in Hinv.
    now rewrite !length_map in Hinv.
  - destruct e as [request|buffer]; cbn [run] in Hrun.
    + destruct (findBuffer request (stream_ (data w))) as [b|] eqn:Hf.
      * destruct (V4L2.queueBuffer (video_ (data w)) b) as [r dev] eqn:Hq.
        rewrite (queueRequest_found _ _ _ _ _ Hf Hq) in Hrun.
        destruct (r <? 0) eqn:Hlt.
        -- assert (Hz : (r =? 0) = false).
           { apply Z.eqb_neq. apply Z.ltb_lt in Hlt. lia. }
           rewrite Hz in Hrun. refine (IH _ _ _ _ _ _ _ Hrun). exact Hinv.
        -- cbn [Z.eqb] in Hrun. refine (IH _ _ _ _ _ _ _ Hrun).
           unfold inFlight in *. cbn. rewrite !map_app, Hinv. cbn.
           now rewrite Hf.
      * rewrite (queueRequest_notfound _ _ Hf) in Hrun.
        exact (IH _ _ _ _ _ _ Hinv Hrun).
    + destruct hw as [|oldest hw]; [discriminate|].
      destruct (Nat.eqb oldest buffer); [|discriminate].
      destruct (queuedRequests_ (data w)) as [|r q] eqn:Hqueue;
        [unfold inFlight in Hinv; rewrite Hqueue in Hinv; discriminate|].
      rewrite (bufferReady_cons _ _ _ _ Hqueue) in Hrun.
      refine (IH _ _ _ _ _ _ _ Hrun).
      unfold inFlight in *. cbn. rewrite Hqueue in Hinv. cbn in Hinv.
      now injection Hinv.
Qed.

(** X13: the configuration generated for a camera that [match] has
    registered covers exactly the streams that camera exposes: both are
    the one stream of the camera's private data. *)
Theorem match_camera_streams_configured (enumerator : list MediaDevice)
  (addr : StreamPtr) (h : Handler) (roles : StreamRoles)
  (store : gmap StreamPtr Stream) (sigs : list Signal) :
  fst (match_ enumerator addr h) = true ->
  exists camera d config,
    last (cameras_ (snd (match_ enumerator addr h))) = Some (camera, d)
    /\ generateConfiguration roles
         {| data := d; streams := store; signals := sigs |}
       = Some (config, {| data := d; streams := store; signals := sigs |})
    /\ forall p : StreamPtr,
         is_Some (config !! p) <-> In p (cameraStreams camera).
Proof.
  destruct (acquireMediaDevice enumerator vimcMatch) as [media|] eqn:Ha.
  - rewrite (match_some _ _ _ _ Ha).
    destruct (V4L2.open (V4L2.create (getEntityByName media "Raw Capture 1")))
      as [r video].
    destruct (Z.eqb_spec r 0) as [->|Hr]; cbn [negb fst snd cameras_];
      [|discriminate].
    intros _. do 3 eexists. split; [apply last_snoc|].
    split; [apply generateConfiguration_eq|].
    cbn [stream_ data cameraStreams].
    intros p. destruct (decide (p = addr)) as [->|Hne].
    + rewrite lookup_singleton_eq.
      split; [intros _; now left|intros _; eauto].
    + rewrite lookup_singleton_ne by congruence. split.
      * intros [x Hx]. discriminate.
      * intros [Heq|[]]. congruence.
  - rewrite (match_none _ _ _ Ha). discriminate.
Qed.

End Further.

(** * Concrete runs of the further properties *)

(** X2, at a device that accepts the requested format. *)
Lemma configure_success_iff_witness :
  exists w',
    configure {[ 1%nat := Fixture.vga ]}
      (Fixture.world (Fixture.device []) [])
    = Some (0, w').
Proof.
  assert (Hset :
    V4L2.setFormat (video_ (data (Fixture.world (Fixture.device []) [])))
      {| V4L2.fourcc :=
           pixelFormat
             (configAt {[ 1%nat := Fixture.vga ]}
                (stream_ (data (Fixture.world (Fixture.device []) []))));
         V4L2.size :=
           size
             (configAt {[ 1%nat := Fixture.vga ]}
                (stream_ (data (Fixture.world (Fixture.device []) [])))) |}
    = ((0, {| V4L2.fourcc := V4L2_PIX_FMT_RGB24;
              V4L2.size := mkSize 640 480 |}), Fixture.device []))
    by (vm_compute; reflexivity).
  destruct (configure_success_iff _ _ _ _ _ Hset)
    as (r & w' & Hrun & Hiff & _).
  exists w'. rewrite Hrun. f_equal. f_equal. apply Hiff.
  split; [reflexivity|]. vm_compute. reflexivity.
Defined.

(** X4, at a device that accepts the default format. *)
Lemma configure_generated_witness :
  exists config w',
    generateConfiguration [Viewfinder] (Fixture.world (Fixture.device []) [])
    = Some (config, Fixture.world (Fixture.device []) [])
    /\ configure config (Fixture.world (Fixture.device []) []) = Some (0, w').
Proof.
  destruct (@configure_generated Fixture.Dev Fixture.scripted [Viewfinder]
              (Fixture.world (Fixture.device []) []) 0
              {| V4L2.fourcc := V4L2_PIX_FMT_RGB24;
                 V4L2.size := mkSize 640 480 |}
              (Fixture.device []) eq_refl)
    as (config & r & w' & Hgen & Hrun & _ & Hok & _).
  exists config, w'. split; [exact Hgen|].
  rewrite Hrun. f_equal. f_equal. apply Hok; reflexivity.
Defined.

(** X7: the front request holds buffer 0 and the event carries buffer 5. *)
Lemma bufferReady_foreign_buffer_witness :
  exists w',
    bufferReady 5%nat
      (Fixture.world (Fixture.device [])
         [Fixture.request 1 1 0; Fixture.request 2 1 1])
    = Some (tt, w')
    /\ queuedRequests_ (data w') = [Fixture.request 2 1 1]
    /\ completedRequests (signals w') = [1%nat].
Proof.
  destruct (bufferReady_foreign_buffer 5%nat
              (Fixture.world (Fixture.device [])
                 [Fixture.request 1 1 0; Fixture.request 2 1 1])
              (Fixture.request 1 1 0) [Fixture.request 2 1 1] eq_refl)
    as (w' & Hrun & Hqueue & Hsig).
  - intros s e Hs. unfold Fixture.request in Hs. cbn in Hs.
    apply lookup_singleton_Some in Hs as [_ <-]. discriminate.
  - exists w'. split; [exact Hrun|]. split; [exact Hqueue|].
    rewrite Hsig. reflexivity.
Defined.

(** X8, with one request in flight. *)
Lemma queueRequest_bufferReady_commute_witness :
  (c <- queueRequest (Fixture.request 2 1 1) ;;
   bufferReady 0%nat ;;; ret c)
    (Fixture.world (Fixture.device []) [Fixture.request 1 1 0])
  = (bufferReady 0%nat ;;; queueRequest (Fixture.request 2 1 1))
      (Fixture.world (Fixture.device []) [Fixture.request 1 1 0]).
Proof.
  apply (@queueRequest_bufferReady_commute Fixture.Dev Fixture.scripted).
  discriminate.
Defined.

(** X10, at an enumerator whose second graph is the vimc one. *)
Lemma match_video_entity_found_witness :
  exists e,
    getEntityByName Fixture.vimcGraph "Raw Capture 1" = Some e
    /\ ename e = "Raw Capture 1"
    /\ In e (entities Fixture.vimcGraph).
Proof.
  exact (match_video_entity_found [Fixture.otherGraph; Fixture.vimcGraph]
           Fixture.vimcGraph eq_refl).
Defined.

(** X11: a second configuration with an entry for another stream. *)
Lemma configure_reads_own_stream_only_witness :
  configure {[ 1%nat := Fixture.vga ]} (Fixture.world (Fixture.device []) [])
  = configure {[ 1%nat := Fixture.vga; 2%nat := emptyConfiguration ]}
      (Fixture.world (Fixture.device []) []).
Proof.
  apply (@configure_reads_own_stream_only Fixture.Dev Fixture.scripted).
  vm_compute. reflexivity.
Defined.

(** X12, after R1, R2, R3 and the completion of R1. *)
Lemma run_keeps_inFlight_witness :
  match run [Submit (Fixture.request 1 1 0); Submit (Fixture.request 2 1 1);
             Submit (Fixture.request 3 1 2); Ready 0%nat]
            [] [] (Fixture.world (Fixture.device []) []) with
  | Done hw acc w' =>
      inFlight hw w' /\ length (queuedRequests_ (data w')) = length hw
  | _ => False
  end.
Proof.
  destruct (run [Submit (Fixture.request 1 1 0); Submit (Fixture.request 2 1 1);
                 Submit (Fixture.request 3 1 2); Ready 0%nat]
                [] [] (Fixture.world (Fixture.device []) []))
    as [hw acc w'| |] eqn:Hrun.
  - refine (@run_keeps_inFlight Fixture.Dev Fixture.scripted _ [] []
              (Fixture.world (Fixture.device []) []) hw acc w' _ Hrun).
    reflexivity.
  - vm_compute in Hrun. discriminate.
  - vm_compute in Hrun. discriminate.
Defined.

(** X13, at an enumerator whose second graph is the vimc one. *)
Lemma match_camera_streams_configured_witness :
  exists camera d config,
    last (cameras_ (snd (match_ [Fixture.otherGraph; Fixture.vimcGraph] 1%nat
                           {| media_ := None; cameras_ := [] |})))
    = Some (camera, d)
    /\ generateConfiguration [Viewfinder]
         {| data := d; streams := ∅; signals := [] |}
       = Some (config, {| data := d; streams := ∅; signals := [] |})
    /\ forall p : StreamPtr,
         is_Some (config !! p) <-> In p (cameraStreams camera).
Proof.
  exact (@match_camera_streams_configured Fixture.Dev Fixture.scripted
           [Fixture.otherGraph; Fixture.vimcGraph] 1%nat
           {| media_ := None; cameras_ := [] |} [Viewfinder] ∅ [] eq_refl).
Defined.
